(** * Motorsport session manager: a shallow embedding of [Unit Test.cpp]

    The C++ class [MotorsportManager] keeps up to [MAX_SESSIONS] racing
    sessions in a fixed array together with a counter, and computes lap-time
    averages over them.  This file embeds the class and its methods and
    proves the properties of the session store.

    Modelling choices.
    - [double] is IEEE 754 binary64 with round-to-nearest-even, that is,
      Rocq's primitive [float]; C++ arithmetic on [double] is the primitive
      arithmetic, and the literals [0.0], [3.0], [95.0], ... are the
      corresponding float constants.
    - [int] values ([sessionCount], [lapCount], the loop counters) are
      elements of [Z]; no computation of the class leaves the range of
      [int] (the counter is bounded by [MAX_SESSIONS] and [lapCount] by
      three times that), so no wrap-around arises.
    - [VehicleType] is an unscoped enumeration; a value of that type is its
      underlying integer, which [main] obtains by [static_cast] from user
      input, so it may be different from the three enumerators.
    - The array [sessions] is a list; an access outside of it is undefined
      behaviour in C++ and [None] here.  Methods that access the array run
      in the [option] monad. *)

From Stdlib Require Import ZArith Floats Uint63 Lia QArith Qcanon.
From stdpp Require Import base option list strings.

Local Open Scope Z_scope.

(** ** Numbers *)

Definition double : Type := float.

(** Conversion of an [int] to [double] (exact on the whole range of [int]). *)
Definition double_of_int (n : Z) : double :=
  if n <? 0 then (- of_uint63 (Uint63.of_Z (- n)))%float
  else of_uint63 (Uint63.of_Z n).

(** ** enum VehicleType { GT3 = 1, Formula, Rally } *)

Definition VehicleType : Type := Z.

Definition GT3 : VehicleType := 1.
Definition Formula : VehicleType := 2.
Definition Rally : VehicleType := 3.

(** ** struct Session *)

Record Session : Type := mkSession {
  driverName : string;
  trackName : string;
  vehicle : VehicleType;
  lapTimes : double * double * double  (* double lapTimes[3] *)
}.

(** [s.lapTimes[j]], for the indices [0], [1], [2] of the array. *)
Definition lapTime (s : Session) (j : nat) : double :=
  match lapTimes s with
  | (t0, t1, t2) =>
      match j with
      | O => t0
      | S O => t1
      | _ => t2
      end
  end.

(** ** Arrays and loops *)

(** [a[i]] as an rvalue. *)
Definition array_get {A : Type} (a : list A) (i : Z) : option A :=
  if decide (0 ≤ i) then a !! Z.to_nat i else None.

(** [a[i] = x]. *)
Definition array_set {A : Type} (a : list A) (i : Z) (x : A) : option (list A) :=
  if decide (0 ≤ i ∧ (Z.to_nat i < length a)%nat)
  then Some (<[Z.to_nat i := x]> a)
  else None.

(** [for (int i = 0; i < n; i++) body], the indices that the loop visits. *)
Definition loop_indices (n : Z) : list Z := seqZ 0 n.

(** Running a loop body (which may fail) over the indices, threading the
    local variables [st] of the loop. *)
Fixpoint for_each {I St : Type} (body : St → I → option St)
    (st : St) (l : list I) : option St :=
  match l with
  | [] => Some st
  | i :: l' => st' ← body st i; for_each body st' l'
  end.

(** ** class MotorsportManager *)

Definition MAX_SESSIONS : Z := 5.

Record MotorsportManager : Type := mkManager {
  sessions : list Session;   (* Session sessions[MAX_SESSIONS] *)
  sessionCount : Z           (* int sessionCount *)
}.

(** The constructor sets the counter and leaves the array as
    default-initialised: [mem] stands for the five elements of the array at
    that point (empty strings, indeterminate vehicle and lap times). *)
Definition newMotorsportManager (mem : list Session) : MotorsportManager :=
  {| sessions := mem; sessionCount := 0 |}.

Definition addSession (m : MotorsportManager) (s : Session)
    : option (bool * MotorsportManager) :=
  if sessionCount m >=? MAX_SESSIONS then Some (false, m)
  else
    a ← array_set (sessions m) (sessionCount m) s;
    Some (true, {| sessions := a; sessionCount := sessionCount m + 1 |}).

Definition getSessionCount (m : MotorsportManager) : Z :=
  sessionCount m.

Definition calculateAverageLap (s : Session) : double :=
  let total :=
    foldl (λ total i, (total + lapTime s i)%float) 0%float (seq 0 3) in
  (total / 3)%float.

(** The inner loop of [calculateOverallAverage] over one session. *)
Definition add_laps (s : Session) (acc : double * Z) : double * Z :=
  foldl (λ '(total, lapCount) j, ((total + lapTime s j)%float, lapCount + 1))
        acc (seq 0 3).

Definition calculateOverallAverage (m : MotorsportManager) : option double :=
  if sessionCount m =? 0 then Some 0%float
  else
    '(total, lapCount) ←
      for_each (λ acc i, s ← array_get (sessions m) i; Some (add_laps s acc))
               (0%float, 0) (loop_indices (sessionCount m));
    Some (total / double_of_int lapCount)%float.

Definition getBaseLapTime (vehicle : VehicleType) : double :=
  if vehicle =? GT3 then 95%float
  else if vehicle =? Formula then 70%float
  else 120%float.

(** ** The manager as a state machine *)

(** A call of a public method, and what it returns. *)
Inductive call : Type :=
| AddSession (s : Session)
| GetSessionCount
| CalculateAverageLap (s : Session)
| CalculateOverallAverage
| GetBaseLapTime (vehicle : VehicleType).

Inductive result : Type :=
| RBool (b : bool)
| RInt (n : Z)
| RDouble (d : double).

(** One call on the manager [m]: the value returned and the manager
    afterwards.  All methods but [addSession] are [const]. *)
Definition exec (m : MotorsportManager) (c : call)
    : option (result * MotorsportManager) :=
  match c with
  | AddSession s => '(b, m') ← addSession m s; Some (RBool b, m')
  | GetSessionCount => Some (RInt (getSessionCount m), m)
  | CalculateAverageLap s => Some (RDouble (calculateAverageLap s), m)
  | CalculateOverallAverage =>
      d ← calculateOverallAverage m; Some (RDouble d, m)
  | GetBaseLapTime v => Some (RDouble (getBaseLapTime v), m)
  end.

(** The managers that a program can build: a constructed one, and what
    calls of the methods make of it. *)
Inductive reachable : MotorsportManager → Prop :=
| reachable_new (mem : list Session) :
    length mem = Z.to_nat MAX_SESSIONS →
    reachable (newMotorsportManager mem)
| reachable_exec (m m' : MotorsportManager) (c : call) (r : result) :
    reachable m → exec m c = Some (r, m') → reachable m'.

(** Adding the sessions of a list one after the other, collecting the
    results of the calls. *)
Fixpoint addSessions (m : MotorsportManager) (l : list Session)
    : option (list bool * MotorsportManager) :=
  match l with
  | [] => Some ([], m)
  | s :: l' =>
      '(b, m1) ← addSession m s;
      '(bs, m2) ← addSessions m1 l';
      Some (b :: bs, m2)
  end.

(** A sequence of calls, one after the other, with the values returned. *)
Fixpoint exec_all (m : MotorsportManager) (cs : list call)
    : option (list result * MotorsportManager) :=
  match cs with
  | [] => Some ([], m)
  | c :: cs' =>
      '(r, m1) ← exec m c;
      '(rs, m2) ← exec_all m1 cs';
      Some (r :: rs, m2)
  end.

(** ** Vocabulary of the specification *)

(** The stored sessions, in insertion order: the first [sessionCount]
    elements of the array. *)
Definition stored (m : MotorsportManager) : list Session :=
  take (Z.to_nat (sessionCount m)) (sessions m).

(** The array has [MAX_SESSIONS] elements and the counter is within it. *)
Definition wf (m : MotorsportManager) : Prop :=
  length (sessions m) = Z.to_nat MAX_SESSIONS ∧
  0 ≤ sessionCount m ≤ MAX_SESSIONS.

(** The three lap times of a session, in order. *)
Definition laps (s : Session) : list double :=
  match lapTimes s with (t0, t1, t2) => [t0; t1; t2] end.

(** The sum of a list of doubles, accumulated from [0.0] in list order. *)
Definition sum_doubles (l : list double) : double :=
  foldl (λ acc x, (acc + x)%float) 0%float l.

(** Every lap time of every stored session, in storage order. *)
Definition all_laps (m : MotorsportManager) : list double :=
  concat (laps <$> stored m).

(** The mean of all lap times, as the specification words it: the total of
    the [3 × count] values divided by [3 × count]. *)
Definition mean_of_all_laps (m : MotorsportManager) : double :=
  (sum_doubles (all_laps m) / double_of_int (3 * sessionCount m))%float.

(** The mean of the per-session averages. *)
Definition mean_of_session_averages (m : MotorsportManager) : double :=
  (sum_doubles (calculateAverageLap <$> stored m)
   / double_of_int (sessionCount m))%float.

(** Two doubles are the same value: identical (which includes both being
    NaN), or equal for [==] (which identifies [0.0] and [-0.0]). *)
Definition same_double (x y : double) : Prop :=
  x = y ∨ (x =? y)%float = true.

(** ** The averages in exact arithmetic

    Doubles round; to tell what the averages compute apart from the
    rounding, the loops of the two methods are read once more over the
    rationals: a lap time stands for the number it denotes, and [+] and [/]
    are exact. *)

(** The rational number that a finite double denotes (0 for the
    infinities and NaN, which denote none). *)
Definition value (x : double) : Qc :=
  match Prim2SF x with
  | S754_finite sg mant e =>
      Q2Qc (inject_Z (cond_Zopp sg (Zpos mant)) * Qpower 2 e)
  | _ => 0%Qc
  end.

Definition exact_of_int (n : Z) : Qc := Q2Qc (inject_Z n).

(** [calculateAverageLap], exactly. *)
Definition exact_average_lap (s : Session) : Qc :=
  let total :=
    foldl (λ total i, (total + value (lapTime s i))%Qc) 0%Qc (seq 0 3) in
  (total / exact_of_int 3)%Qc.

(** [calculateOverallAverage] on a non-empty store, exactly. *)
Definition exact_overall_average (m : MotorsportManager) : Qc :=
  let '(total, lapCount) :=
    foldl (λ acc s,
             foldl (λ '(total, lapCount) j,
                      ((total + value (lapTime s j))%Qc, lapCount + 1))
                   acc (seq 0 3))
          (0%Qc, 0) (stored m) in
  (total / exact_of_int lapCount)%Qc.

(** The mean of the per-session averages, exactly. *)
Definition exact_mean_of_session_averages (m : MotorsportManager) : Qc :=
  (foldl (λ acc s, (acc + exact_average_lap s)%Qc) 0%Qc (stored m)
   / exact_of_int (sessionCount m))%Qc.

(** ** Sample data (from the unit tests of the source) *)

Definition session_A : Session := mkSession "A" "B" Formula (70, 71, 69)%float.
Definition session_X : Session := mkSession "X" "Y" GT3 (1, 1, 1)%float.
Definition session_Z : Session := mkSession "Z" "Z" GT3 (0, 0, 0)%float.

(** A default-initialised array of five sessions. *)
Definition blank_session : Session := mkSession "" "" 0 (0, 0, 0)%float.
Definition blank_array : list Session := replicate 5 blank_session.

(** The store after [addSession(session_A)] on a new manager. *)
Definition store_A : MotorsportManager :=
  mkManager (session_A :: replicate 4 blank_session) 1.

(** Two sessions whose lap times are small integers, and the store that
    holds them. *)
Definition session_P : Session := mkSession "P" "T" GT3 (1, 1, 0)%float.
Definition session_Q : Session := mkSession "Q" "T" GT3 (1, 1, 1)%float.
Definition store_PQ : MotorsportManager :=
  mkManager (session_P :: session_Q :: replicate 3 blank_session) 2.

(** ** The main program

    [main] reads a driver name, a track name and a vehicle choice, draws
    three lap times, stores the session in a new manager, shows the
    averages and writes [report.txt].  What it reads is an argument here:
    the two lines that [getline] returns, the integer that [cin >> choice]
    yields, and the three values [r0], [r1], [r2] that the successive calls
    of [rand()] return.  The conversion of a [double] to text by
    [operator<<] belongs to the stream library and is the argument [fmt]. *)

(** [baseTime + (rand() % 1000) / 100.0], for the value [r] of [rand()];
    [%] on [int] truncates, as [Z.rem]. *)
Definition generate_lap (baseTime : double) (r : Z) : double :=
  let randomOffset := (double_of_int (Z.rem r 1000) / 100)%float in
  (baseTime + randomOffset)%float.

(** The session that [main] fills in. *)
Definition main_session (driver track : string) (choice : Z) (r0 r1 r2 : Z)
    : Session :=
  let vehicle : VehicleType := choice in  (* static_cast<VehicleType>(choice) *)
  let baseTime := getBaseLapTime vehicle in
  mkSession driver track vehicle
            (generate_lap baseTime r0, generate_lap baseTime r1,
             generate_lap baseTime r2).

(** The name of the vehicle in the report. *)
Definition vehicleName (vehicle : VehicleType) : string :=
  if vehicle =? GT3 then "GT3"
  else if vehicle =? Formula then "Formula"
  else "Rally".

Definition newline_char : Ascii.ascii := Eval cbv in Ascii.ascii_of_nat 10.
Definition newline : string := String newline_char "".

Fixpoint spaces (n : nat) : string :=
  match n with
  | O => ""
  | S n' => String Ascii.Space (spaces n')
  end.

(** [left << setw(w) << s]: the text, then spaces up to the width [w];
    a text longer than [w] is written whole. *)
Definition setw_left (w : nat) (s : string) : string :=
  s +:+ spaces (w - String.length s).

(** The header of the report; its last field is the text ["Avg Lap\n"],
    newline included. *)
Definition report_header : string :=
  setw_left 15 "Driver" +:+ setw_left 15 "Track" +:+ setw_left 10 "Vehicle"
  +:+ setw_left 12 ("Avg Lap" +:+ newline).

(** The row of the report for a session, ended by [endl]. *)
Definition report_row (fmt : double → string) (s : Session) : string :=
  setw_left 15 (driverName s) +:+ setw_left 15 (trackName s)
  +:+ setw_left 10 (vehicleName (vehicle s))
  +:+ setw_left 12 (fmt (calculateAverageLap s)) +:+ newline.

(** The contents of [report.txt]: the characters written to the stream. *)
Definition report (fmt : double → string) (s : Session) : string :=
  report_header +:+ report_row fmt s.

(** What a run of [main] shows and writes. *)
Record Output : Type := mkOutput {
  shownLapTimes : double * double * double;
  shownAverageLap : double;
  shownOverallAverage : double;
  reportFile : string
}.

Definition main (fmt : double → string) (mem : list Session)
    (driver track : string) (choice : Z) (r0 r1 r2 : Z) : option Output :=
  let manager := newMotorsportManager mem in
  let session := main_session driver track choice r0 r1 r2 in
  '(_, manager) ← addSession manager session;
  overall ← calculateOverallAverage manager;
  Some {| shownLapTimes := lapTimes session;
          shownAverageLap := calculateAverageLap session;
          shownOverallAverage := overall;
          reportFile := report fmt session |}.

(** ** Vocabulary for the further properties *)

(** One of the lap times is a NaN. *)
Definition has_nan_lap (s : Session) : Prop :=
  ∃ j : nat, (j < 3)%nat ∧ lapTime s j = nan.

(** The number of calls that returned [true]. *)
Definition returned_true (r : result) : bool :=
  match r with
  | RBool true => true
  | _ => false
  end.

Definition count_true (rs : list result) : Z :=
  Z.of_nat (length (List.filter returned_true rs)).

(** The lines of a text: the parts between the newline characters. *)
Fixpoint split_lines (s : string) : list string :=
  match s with
  | EmptyString => [""]
  | String c s' =>
      if Ascii.eqb c newline_char then "" :: split_lines s'
      else match split_lines s' with
           | l :: ls => String c l :: ls
           | [] => [String c ""]
           end
  end.

Fixpoint has_newline (s : string) : bool :=
  match s with
  | EmptyString => false
  | String c s' => Ascii.eqb c newline_char || has_newline s'
  end.

(** The lap times [base + k / 100.0] stay in the range of the draw;
    checked for one [k]. *)
Definition lap_in_range (baseTime : double) (k : Z) : bool :=
  let lap := generate_lap baseTime k in
  (baseTime <=? lap)%float && (lap <? baseTime + 10)%float.

(** * Properties *)

(** ** Arrays and loops *)

Section loops.
Context {A St : Type}.
Implicit Types (a : list A) (f : A → St → St).

Lemma array_get_of_nat a (k : nat) : array_get a (Z.of_nat k) = a !! k.
Proof. unfold array_get. rewrite decide_True by lia. by rewrite Nat2Z.id. Qed.

(** A loop that reads [a[i]] for the [n] indices from [k] on, inside the
    array, never fails, and folds its body over that part of the array. *)
Lemma for_each_array_get a f (n k : nat) (st : St) :
  (k + n ≤ length a)%nat →
  for_each (λ acc i, x ← array_get a i; Some (f x acc)) st
           (seqZ (Z.of_nat k) (Z.of_nat n))
  = Some (foldl (λ acc x, f x acc) st (take n (drop k a))).
Proof.
  revert k st. induction n as [|n IH]; intros k st Hle.
  - reflexivity.
  - rewrite seqZ_cons by lia. simpl for_each.
    destruct (lookup_lt_is_Some_2 a k ltac:(lia)) as [x Hx].
    rewrite array_get_of_nat, Hx. simpl.
    replace (Z.succ (Z.of_nat k)) with (Z.of_nat (S k)) by lia.
    replace (Z.pred (Z.of_nat (S n))) with (Z.of_nat n) by lia.
    rewrite IH by lia.
    rewrite (drop_S a x k Hx). reflexivity.
Qed.
End loops.

Lemma take_insert_snoc {A : Type} (a : list A) (n : nat) (x : A) :
  (n < length a)%nat → take (S n) (<[n := x]> a) = take n a ++ [x].
Proof.
  revert n. induction a as [|y a IH]; intros [|n] Hn; simpl in *; try lia.
  - reflexivity.
  - f_equal. apply IH. lia.
Qed.

(** ** The inner loop *)

Lemma add_laps_spec (s : Session) (total : double) (lapCount : Z) :
  add_laps s (total, lapCount)
  = (foldl (λ acc x, (acc + x)%float) total (laps s), lapCount + 3).
Proof.
  unfold add_laps, laps, lapTime. destruct (lapTimes s) as [[t0 t1] t2].
  simpl. f_equal. lia.
Qed.

Lemma foldl_add_laps (l : list Session) (total : double) (lapCount : Z) :
  foldl (λ acc s, add_laps s acc) (total, lapCount) l
  = (foldl (λ acc x, (acc + x)%float) total (concat (laps <$> l)),
     lapCount + 3 * Z.of_nat (length l)).
Proof.
  revert total lapCount. induction l as [|s l IH]; intros total lapCount.
  - simpl. f_equal. lia.
  - simpl foldl at 1. rewrite add_laps_spec, IH.
    simpl. rewrite foldl_app. f_equal. lia.
Qed.

Lemma length_concat_laps (l : list Session) :
  length (concat (laps <$> l)) = (3 * length l)%nat.
Proof.
  induction l as [|s l IH]; [reflexivity|].
  rewrite fmap_cons. simpl concat. rewrite length_app, IH.
  unfold laps. destruct (lapTimes s) as [[t0 t1] t2]. simpl. lia.
Qed.

Lemma length_stored (m : MotorsportManager) :
  wf m → Z.of_nat (length (stored m)) = sessionCount m.
Proof.
  intros [Hlen Hcnt]. unfold stored. rewrite length_take.
  unfold MAX_SESSIONS in *. lia.
Qed.

(** The outcome of [calculateOverallAverage] on a non-empty store. *)
Lemma calculateOverallAverage_nonempty (m : MotorsportManager) :
  wf m → 1 ≤ sessionCount m →
  calculateOverallAverage m = Some (mean_of_all_laps m).
Proof.
  intros Hwf Hpos. pose proof (length_stored m Hwf) as Hst.
  destruct Hwf as [Hlen Hcnt].
  unfold calculateOverallAverage.
  destruct (Z.eqb_spec (sessionCount m) 0) as [?|_]; [lia|].
  unfold loop_indices.
  rewrite <- (Z2Nat.id (sessionCount m)) at 1 by lia.
  rewrite (for_each_array_get (sessions m) add_laps _ 0)
    by (unfold MAX_SESSIONS in *; lia).
  rewrite drop_0. fold (stored m).
  rewrite foldl_add_laps. simpl.
  unfold mean_of_all_laps, sum_doubles, all_laps.
  rewrite Hst. replace (0 + 3 * sessionCount m) with (3 * sessionCount m) by lia.
  reflexivity.
Qed.

(** ** Floating-point facts *)

(** [0.0 + a] is [a], except that [0.0 + -0.0] is [0.0]. *)
Lemma add_zero_l (a : double) : (0 + a)%float = a ∨ a = (-0)%float.
Proof.
  destruct (Prim2SF a) as [[|]| | |] eqn:Ea.
  - right. apply Prim2SF_inj. rewrite Ea. reflexivity.
  - left. apply Prim2SF_inj. rewrite FloatAxioms.add_spec, Ea. reflexivity.
  - left. apply Prim2SF_inj. rewrite FloatAxioms.add_spec, Ea. reflexivity.
  - left. apply Prim2SF_inj. rewrite FloatAxioms.add_spec, Ea. reflexivity.
  - left. apply Prim2SF_inj. rewrite FloatAxioms.add_spec, Ea. reflexivity.
Qed.

(** [-0.0 + a] is [a], for every [a]. *)
Lemma add_neg_zero_l (a : double) : (-0 + a)%float = a.
Proof.
  apply Prim2SF_inj. rewrite FloatAxioms.add_spec.
  destruct (Prim2SF a) as [[|]| | |]; reflexivity.
Qed.

(** Two doubles that [==] tells apart are different. *)
Lemma eqb_false_neq (x y : double) :
  (x =? x)%float = true → (x =? y)%float = false → x ≠ y.
Proof. intros Hx Hxy ->. congruence. Qed.

(** The loop of [calculateAverageLap], unrolled. *)
Lemma calculateAverageLap_unfold d t v (a b c : double) :
  calculateAverageLap (mkSession d t v (a, b, c))
  = ((0 + a + b + c) / 3)%float.
Proof. reflexivity. Qed.

(** The code starts its total at [0.0]; the total is that of [a + b + c]
    unless all three lap times are [-0.0]. *)
Lemma total_from_zero (a b c : double) :
  (0 + a + b + c)%float = (a + b + c)%float
  ∨ (a = (-0)%float ∧ b = (-0)%float ∧ c = (-0)%float).
Proof.
  destruct (add_zero_l a) as [Ha | ->]; [left; by rewrite Ha|].
  change (0 + -0)%float with 0%float. rewrite add_neg_zero_l.
  destruct (add_zero_l b) as [Hb | ->]; [left; by rewrite Hb|].
  change (0 + -0)%float with 0%float. rewrite add_neg_zero_l.
  destruct (add_zero_l c) as [Hc | ->]; [left; by rewrite Hc|].
  by right.
Qed.

(** ** addSession *)

Lemma addSession_full (m : MotorsportManager) (s : Session) :
  MAX_SESSIONS ≤ sessionCount m → addSession m s = Some (false, m).
Proof.
  intros H. unfold addSession.
  destruct (Z.geb_spec (sessionCount m) MAX_SESSIONS); [done | lia].
Qed.

Lemma addSession_room (m : MotorsportManager) (s : Session) :
  0 ≤ sessionCount m < MAX_SESSIONS →
  (Z.to_nat (sessionCount m) < length (sessions m))%nat →
  addSession m s
  = Some (true, {| sessions := <[Z.to_nat (sessionCount m) := s]> (sessions m);
                   sessionCount := sessionCount m + 1 |}).
Proof.
  intros H Hlen. unfold addSession, array_set.
  destruct (Z.geb_spec (sessionCount m) MAX_SESSIONS); [lia|].
  rewrite decide_True by (split; [lia | done]). reflexivity.
Qed.

(** What a call of [addSession] that returns has done. *)
Lemma addSession_inv (m m' : MotorsportManager) (s : Session) (b : bool) :
  addSession m s = Some (b, m') →
  (b = false ∧ m' = m ∧ MAX_SESSIONS ≤ sessionCount m)
  ∨ (b = true ∧ 0 ≤ sessionCount m < MAX_SESSIONS
     ∧ (Z.to_nat (sessionCount m) < length (sessions m))%nat
     ∧ m' = {| sessions := <[Z.to_nat (sessionCount m) := s]> (sessions m);
               sessionCount := sessionCount m + 1 |}).
Proof.
  unfold addSession, array_set.
  destruct (Z.geb_spec (sessionCount m) MAX_SESSIONS) as [Hge|Hlt].
  - intros [= <- <-]. left. repeat split. lia.
  - case_decide as Hin; simpl; [|done].
    intros [= <- <-]. right. destruct Hin. repeat split; try done; lia.
Qed.

(** The stored sessions after a successful [addSession]. *)
Lemma stored_insert (m : MotorsportManager) (s : Session) :
  0 ≤ sessionCount m →
  (Z.to_nat (sessionCount m) < length (sessions m))%nat →
  stored {| sessions := <[Z.to_nat (sessionCount m) := s]> (sessions m);
            sessionCount := sessionCount m + 1 |}
  = stored m ++ [s].
Proof.
  intros H0 Hlen. unfold stored. simpl.
  replace (Z.to_nat (sessionCount m + 1)) with (S (Z.to_nat (sessionCount m)))
    by lia.
  by apply take_insert_snoc.
Qed.

(** ** The invariant of the store *)

Lemma wf_new (mem : list Session) :
  length mem = Z.to_nat MAX_SESSIONS → wf (newMotorsportManager mem).
Proof. intros H. split; [done | simpl; unfold MAX_SESSIONS; lia]. Qed.

Lemma wf_addSession (m m' : MotorsportManager) (s : Session) (b : bool) :
  wf m → addSession m s = Some (b, m') → wf m'.
Proof.
  intros [Hlen Hcnt] Hadd.
  destruct (addSession_inv _ _ _ _ Hadd) as [(_ & -> & _)|(_ & Hc & _ & ->)].
  - done.
  - split; simpl; [by rewrite length_insert | lia].
Qed.

Lemma wf_exec (m m' : MotorsportManager) (c : call) (r : result) :
  wf m → exec m c = Some (r, m') → wf m'.
Proof.
  intros Hwf. destruct c as [s| |s| |v]; simpl.
  - destruct (addSession m s) as [[b m1]|] eqn:Hadd; simpl; [|done].
    intros [= _ <-]. by eapply wf_addSession.
  - by intros [= _ <-].
  - by intros [= _ <-].
  - destruct (calculateOverallAverage m); simpl; [|done]. by intros [= _ <-].
  - by intros [= _ <-].
Qed.

Lemma reachable_wf (m : MotorsportManager) : reachable m → wf m.
Proof.
  induction 1 as [mem Hlen | m m' c r _ IH Hexec].
  - by apply wf_new.
  - by eapply wf_exec.
Qed.

(** On a well-formed store [addSession] always returns. *)
Lemma addSession_total (m : MotorsportManager) (s : Session) :
  wf m → is_Some (addSession m s).
Proof.
  intros [Hlen Hcnt].
  destruct (decide (sessionCount m < MAX_SESSIONS)) as [Hlt|Hge].
  - rewrite addSession_room; [done | lia |]. unfold MAX_SESSIONS in *. lia.
  - rewrite addSession_full by lia. done.
Qed.

(** No call on a reachable manager runs into undefined behaviour. *)
Lemma exec_total (m : MotorsportManager) (c : call) :
  reachable m → is_Some (exec m c).
Proof.
  intros Hwf%reachable_wf. destruct c as [s| |s| |v]; simpl; try done.
  - destruct (addSession_total m s Hwf) as [[b m'] ->]. done.
  - destruct (decide (sessionCount m = 0)) as [H0|Hne].
    + unfold calculateOverallAverage. rewrite H0. done.
    + rewrite calculateOverallAverage_nonempty; [done..|].
      destruct Hwf as [_ ?]. lia.
Qed.

(** Adding a list of sessions that fits into the store. *)
Lemma addSessions_room (l : list Session) (m : MotorsportManager) :
  wf m → sessionCount m + Z.of_nat (length l) ≤ MAX_SESSIONS →
  ∃ m', addSessions m l = Some (replicate (length l) true, m')
        ∧ wf m'
        ∧ stored m' = stored m ++ l
        ∧ sessionCount m' = sessionCount m + Z.of_nat (length l).
Proof.
  revert m. induction l as [|s l IH]; intros m Hwf Hfit.
  - exists m. simpl. rewrite app_nil_r.
    split; [done|]. split; [done|]. split; [done | lia].
  - simpl in Hfit. pose proof Hwf as [Hlen Hcnt].
    assert (Hin : (Z.to_nat (sessionCount m) < length (sessions m))%nat)
      by (unfold MAX_SESSIONS in *; lia).
    pose proof (addSession_room m s ltac:(lia) Hin) as Hadd.
    set (m1 := {| sessions := <[Z.to_nat (sessionCount m) := s]> (sessions m);
                  sessionCount := sessionCount m + 1 |}) in *.
    destruct (IH m1) as (m' & Hrun & Hwf' & Hst & Hc).
    { by eapply wf_addSession. }
    { simpl. lia. }
    exists m'. simpl. rewrite Hadd. simpl. rewrite Hrun. simpl.
    split; [done|]. split; [done|]. split.
    + rewrite Hst. unfold m1. rewrite stored_insert by (done || lia).
      by rewrite <- app_assoc.
    + rewrite Hc. simpl. lia.
Qed.

(** ** What a call does to the stored sessions *)

(** A call leaves the manager as it is, unless it is an [addSession] that
    returns [true], which appends its argument to the stored sessions. *)
Lemma exec_cases (m m' : MotorsportManager) (c : call) (r : result) :
  exec m c = Some (r, m') →
  (m' = m ∧ ((∀ s, c ≠ AddSession s) ∨ r = RBool false))
  ∨ ∃ s, c = AddSession s ∧ r = RBool true ∧ stored m' = stored m ++ [s].
Proof.
  intros Hexec. destruct c as [s| |s| |v]; simpl in Hexec.
  - destruct (addSession m s) as [[b m1]|] eqn:Hadd; simpl in Hexec; [|done].
    injection Hexec as <- <-.
    destruct (addSession_inv _ _ _ _ Hadd)
      as [(-> & -> & _)|(-> & Hc & Hin & ->)].
    + left. split; [done | by right].
    + right. exists s. split; [done|]. split; [done|].
      apply stored_insert; [lia | done].
  - injection Hexec as <- <-. left. split; [done | by left].
  - injection Hexec as <- <-. left. split; [done | by left].
  - destruct (calculateOverallAverage m); simpl in Hexec; [|done].
    injection Hexec as <- <-. left. split; [done | by left].
  - injection Hexec as <- <-. left. split; [done | by left].
Qed.

(** Over any sequence of calls the stored sessions only grow at the end. *)
Lemma exec_all_prefix (cs : list call) (m m' : MotorsportManager)
    (rs : list result) :
  exec_all m cs = Some (rs, m') → stored m `prefix_of` stored m'.
Proof.
  revert m rs. induction cs as [|c cs IH]; intros m rs; simpl.
  - by intros [= _ <-].
  - destruct (exec m c) as [[r m1]|] eqn:Hexec; simpl; [|done].
    destruct (exec_all m1 cs) as [[rs' m2]|] eqn:Hall; simpl; [|done].
    intros [= _ <-]. transitivity (stored m1); [|by eapply IH].
    destruct (exec_cases _ _ _ _ Hexec) as [[-> _] | (s & _ & _ & ->)];
      [done | by apply prefix_app_r].
Qed.

Lemma reachable_exec_all (cs : list call) (m : MotorsportManager) :
  reachable m →
  ∃ rs m', exec_all m cs = Some (rs, m')
           ∧ length rs = length cs ∧ reachable m'.
Proof.
  revert m. induction cs as [|c cs IH]; intros m Hm.
  - by exists [], m.
  - destruct (exec_total m c Hm) as [[r m1] Hexec].
    destruct (IH m1) as (rs & m' & Hall & Hlen & Hm').
    { by eapply reachable_exec. }
    exists (r :: rs), m'. simpl. rewrite Hexec. simpl. rewrite Hall. simpl.
    by rewrite Hlen.
Qed.

(** Two sequences of calls, one after the other. *)
Lemma exec_all_app (cs1 cs2 : list call) (m : MotorsportManager) :
  exec_all m (cs1 ++ cs2)
  = '(rs1, m1) ← exec_all m cs1;
    '(rs2, m2) ← exec_all m1 cs2;
    Some (rs1 ++ rs2, m2).
Proof.
  revert m. induction cs1 as [|c cs1 IH]; intros m; simpl.
  - by destruct (exec_all m cs2) as [[rs2 m2]|].
  - destruct (exec m c) as [[r m1]|]; simpl; [|done].
    rewrite IH. destruct (exec_all m1 cs1) as [[rs1 m1']|]; simpl; [|done].
    by destruct (exec_all m1' cs2) as [[rs2 m2]|].
Qed.

(** A call of [calculateAverageLap] in front of a sequence of calls. *)
Lemma exec_all_calculateAverageLap (cs : list call) (m : MotorsportManager)
    (s : Session) :
  exec_all m (CalculateAverageLap s :: cs)
  = '(rs, m') ← exec_all m cs; Some (RDouble (calculateAverageLap s) :: rs, m').
Proof. reflexivity. Qed.

(** ** The unit tests of the source *)

Example test_average_lap :
  calculateAverageLap (mkSession "Test" "Track" GT3 (100, 98, 102)%float)
  = 100%float.
Proof. reflexivity. Qed.

Example test_overall_average_no_sessions :
  calculateOverallAverage (newMotorsportManager blank_array) = Some 0%float.
Proof. reflexivity. Qed.

Example test_overall_average_one_session :
  ('(_, m) ← addSession (newMotorsportManager blank_array) session_A;
   calculateOverallAverage m)
  = Some 70%float.
Proof. reflexivity. Qed.

Example test_zero_lap_times : calculateAverageLap session_Z = 0%float.
Proof. reflexivity. Qed.

Example test_adding_session_increases_count :
  ('(b, m) ← addSession (newMotorsportManager blank_array) session_X;
   Some (b, getSessionCount m))
  = Some (true, 1).
Proof. reflexivity. Qed.

Example test_session_limit :
  ('(bs, m) ← addSessions (newMotorsportManager blank_array)
                          (replicate 6 session_X);
   Some (bs, getSessionCount m))
  = Some ([true; true; true; true; true; false], 5).
Proof. reflexivity. Qed.

(** * The claims of the specification *)

(** C1. On a store whose count is 5, [addSession s] returns [false] and
    leaves the store (count and sessions) as it was; on a store whose count
    is less than 5 it appends [s] after the stored sessions, increments the
    count and returns [true].  Hence adding five sessions to an empty store
    returns [true] five times, and a sixth call returns [false] with
    [getSessionCount] still 5. *)
Theorem addSession_capacity (m : MotorsportManager) (s : Session) :
  wf m →
  (sessionCount m = MAX_SESSIONS → addSession m s = Some (false, m))
  ∧ (sessionCount m < MAX_SESSIONS →
     ∃ m', addSession m s = Some (true, m')
           ∧ stored m' = stored m ++ [s]
           ∧ getSessionCount m' = getSessionCount m + 1)
  ∧ (sessionCount m = 0 →
     ∀ (l : list Session) (s6 : Session), length l = 5%nat →
     ∃ m5, addSessions m l = Some (replicate 5 true, m5)
           ∧ stored m5 = l
           ∧ addSession m5 s6 = Some (false, m5)
           ∧ getSessionCount m5 = 5).
Proof.
  intros Hwf. pose proof Hwf as [Hlen Hcnt]. split; [|split].
  - intros Hfull. apply addSession_full. lia.
  - intros Hlt.
    assert (Hin : (Z.to_nat (sessionCount m) < length (sessions m))%nat)
      by (unfold MAX_SESSIONS in *; lia).
    eexists. split; [apply addSession_room; [lia | done]|].
    split; [apply stored_insert; [lia | done] | reflexivity].
  - intros Hempty l s6 Hl.
    destruct (addSessions_room l m Hwf) as (m5 & Hrun & Hwf5 & Hst & Hc).
    { rewrite Hempty, Hl. unfold MAX_SESSIONS. lia. }
    exists m5. rewrite Hl in Hrun, Hc.
    split; [done|]. split.
    + rewrite Hst. unfold stored. by rewrite Hempty.
    + split; [apply addSession_full; unfold MAX_SESSIONS |
              unfold getSessionCount]; lia.
Qed.

Lemma addSession_capacity_witness :
  wf (newMotorsportManager blank_array)
  ∧ ∃ m5, addSessions (newMotorsportManager blank_array)
                      (replicate 5 session_X)
          = Some (replicate 5 true, m5)
          ∧ stored m5 = replicate 5 session_X
          ∧ addSession m5 session_X = Some (false, m5)
          ∧ getSessionCount m5 = 5.
Proof.
  assert (Hwf : wf (newMotorsportManager blank_array))
    by (split; [reflexivity | simpl; unfold MAX_SESSIONS; lia]).
  split; [exact Hwf|].
  destruct (addSession_capacity (newMotorsportManager blank_array) session_X
              Hwf) as (_ & _ & H).
  exact (H eq_refl (replicate 5 session_X) session_X eq_refl).
Defined.

(** C2. On a store with at least one session, [calculateOverallAverage]
    returns the sum of all lap times of all stored sessions, which are
    [3 × count] values, divided by [3 × count]. *)
Theorem calculateOverallAverage_mean (m : MotorsportManager) :
  wf m → 1 ≤ sessionCount m →
  calculateOverallAverage m
  = Some (sum_doubles (all_laps m) / double_of_int (3 * sessionCount m))%float
  ∧ Z.of_nat (length (all_laps m)) = 3 * sessionCount m.
Proof.
  intros Hwf Hpos. split.
  - by apply calculateOverallAverage_nonempty.
  - rewrite <- (length_stored m Hwf). unfold all_laps.
    rewrite length_concat_laps. lia.
Qed.

Lemma calculateOverallAverage_mean_witness :
  wf store_A ∧ 1 ≤ sessionCount store_A
  ∧ calculateOverallAverage store_A = Some 70%float.
Proof.
  assert (Hwf : wf store_A)
    by (split; [reflexivity | simpl; unfold MAX_SESSIONS; lia]).
  assert (Hpos : 1 ≤ sessionCount store_A) by (simpl; lia).
  split; [exact Hwf|]. split; [exact Hpos|].
  exact (proj1 (calculateOverallAverage_mean store_A Hwf Hpos)).
Defined.

(** C3. On a store whose count is 0, [calculateOverallAverage] returns
    exactly [0.0]: a defined value, not a NaN and not a failure. *)
Theorem calculateOverallAverage_empty (m : MotorsportManager) :
  sessionCount m = 0 →
  calculateOverallAverage m = Some 0%float ∧ is_nan 0%float = false.
Proof.
  intros H0. unfold calculateOverallAverage. rewrite H0. by split.
Qed.

Lemma calculateOverallAverage_empty_witness :
  sessionCount (newMotorsportManager blank_array) = 0
  ∧ calculateOverallAverage (newMotorsportManager blank_array) = Some 0%float.
Proof.
  split; [reflexivity|].
  exact (proj1 (calculateOverallAverage_empty
                  (newMotorsportManager blank_array) eq_refl)).
Defined.

(** C4. For a session with lap times [a], [b], [c], whatever their values
    (zero and negative ones included), [calculateAverageLap] returns the
    value of [(a + b + c) / 3.0]: the two doubles are the same value, and
    even identical unless all three lap times are [-0.0] (where the code
    returns [0.0] and the expression is [-0.0], which [==] identifies).
    For [a = b = c = 0] the result is [0.0]. *)
Theorem calculateAverageLap_exact (d t : string) (v : VehicleType)
    (a b c : double) :
  same_double (calculateAverageLap (mkSession d t v (a, b, c)))
              ((a + b + c) / 3)%float
  ∧ (calculateAverageLap (mkSession d t v (a, b, c)) = ((a + b + c) / 3)%float
     ∨ (a, b, c) = (-0, -0, -0)%float)
  ∧ calculateAverageLap (mkSession d t v (0, 0, 0)%float) = 0%float.
Proof.
  rewrite calculateAverageLap_unfold.
  destruct (total_from_zero a b c) as [-> | (-> & -> & ->)].
  - split; [by left|]. split; [by left | reflexivity].
  - split; [right; reflexivity|]. split; [by right | reflexivity].
Qed.

(** C5. [getBaseLapTime] is defined on every value of the vehicle type:
    95.0 for [GT3], 70.0 for [Formula], and 120.0 for every other value,
    [Rally] and the values that are no enumerator included. *)
Theorem getBaseLapTime_total (v : VehicleType) :
  ((v = GT3 ∧ getBaseLapTime v = 95%float)
   ∨ (v = Formula ∧ getBaseLapTime v = 70%float)
   ∨ (v ≠ GT3 ∧ v ≠ Formula ∧ getBaseLapTime v = 120%float))
  ∧ getBaseLapTime GT3 = 95%float
  ∧ getBaseLapTime Formula = 70%float
  ∧ getBaseLapTime Rally = 120%float
  ∧ getBaseLapTime 0 = 120%float
  ∧ getBaseLapTime 4 = 120%float
  ∧ (∀ m : MotorsportManager,
       exec m (GetBaseLapTime v) = Some (RDouble (getBaseLapTime v), m)).
Proof.
  split; [|by repeat split].
  unfold getBaseLapTime.
  destruct (Z.eqb_spec v GT3) as [->|Hg]; [by left|].
  destruct (Z.eqb_spec v Formula) as [->|Hf]; [right; by left|].
  right; right. done.
Qed.

(** C6. In every reachable state of the store (a constructed manager and
    any sequence of calls on it) the count is between 0 and 5, and
    [getSessionCount] returns that count and leaves the store as it is. *)
Theorem sessionCount_bounds (m : MotorsportManager) :
  reachable m →
  0 ≤ sessionCount m ≤ 5
  ∧ exec m GetSessionCount = Some (RInt (sessionCount m), m).
Proof.
  intros [_ Hcnt]%reachable_wf. split; [exact Hcnt | reflexivity].
Qed.

Lemma sessionCount_bounds_witness :
  reachable store_A
  ∧ 0 ≤ sessionCount store_A ≤ 5
  ∧ exec store_A GetSessionCount = Some (RInt 1, store_A).
Proof.
  assert (Hr : reachable store_A).
  { apply (reachable_exec (newMotorsportManager blank_array) store_A
             (AddSession session_A) (RBool true)).
    - by apply reachable_new.
    - reflexivity. }
  split; [exact Hr | exact (sessionCount_bounds store_A Hr)].
Defined.

(** C7. A call never shrinks, reorders or changes the stored sessions: a
    successful [addSession s] appends [s] after them, every other call
    leaves the manager as it is, and in each case every session stored
    before is stored at the same place afterwards. *)
Theorem stored_sessions_kept (m m' : MotorsportManager) (c : call)
    (r : result) :
  exec m c = Some (r, m') →
  (∀ s, c = AddSession s → r = RBool true → stored m' = stored m ++ [s])
  ∧ ((∀ s, c ≠ AddSession s) ∨ r = RBool false → m' = m)
  ∧ stored m `prefix_of` stored m'
  ∧ (∀ (i : nat) (x : Session),
       stored m !! i = Some x → stored m' !! i = Some x).
Proof.
  intros Hexec.
  destruct (exec_cases _ _ _ _ Hexec) as [[-> Hno] | (s & -> & -> & Hst)].
  - split; [|split; [done | split; [done | done]]].
    intros s -> ->. destruct Hno as [Hno | [=]]. by destruct (Hno s).
  - split; [by intros s' [= <-] _|]. split.
    + intros [Hno | [=]]. by destruct (Hno s).
    + rewrite Hst. split; [by apply prefix_app_r|].
      intros i x Hi. by apply lookup_app_l_Some.
Qed.

Lemma stored_sessions_kept_witness :
  exec store_A (AddSession session_X)
  = Some (RBool true,
          mkManager (session_A :: session_X :: replicate 3 blank_session) 2)
  ∧ stored (mkManager (session_A :: session_X :: replicate 3 blank_session) 2)
    = stored store_A ++ [session_X].
Proof.
  split; [reflexivity|].
  exact (proj1 (stored_sessions_kept store_A _ (AddSession session_X)
                  (RBool true) eq_refl) session_X eq_refl eq_refl).
Defined.

(** C8. [calculateAverageLap] is deterministic and does not depend on the
    store.  Take any run of calls on a constructed manager, and call
    [calculateAverageLap] on a session with lap times [a], [b], [c] at two
    places of the run, with any calls in between (which may add sessions,
    this one or others).  Both calls return the same double, the value
    [(0.0 + a + b + c) / 3.0] that the lap times alone determine, whatever
    the store holds at either place and whatever the names and the vehicle
    of the session are; and the two calls leave no trace: all other calls
    return what they return in the run without them, and the manager at
    the end is the same. *)
Theorem calculateAverageLap_stateless (mem : list Session)
    (cs1 cs2 cs3 : list call) (d t : string) (v : VehicleType)
    (a b c : double) :
  length mem = Z.to_nat MAX_SESSIONS →
  ∃ (rs1 rs2 rs3 : list result) (m3 : MotorsportManager),
    exec_all (newMotorsportManager mem) (cs1 ++ cs2 ++ cs3)
    = Some (rs1 ++ rs2 ++ rs3, m3)
    ∧ length rs1 = length cs1
    ∧ length rs2 = length cs2
    ∧ length rs3 = length cs3
    ∧ exec_all (newMotorsportManager mem)
               (cs1 ++ CalculateAverageLap (mkSession d t v (a, b, c))
                :: cs2 ++ CalculateAverageLap (mkSession d t v (a, b, c))
                :: cs3)
      = Some (rs1 ++ RDouble ((0 + a + b + c) / 3)%float
              :: rs2 ++ RDouble ((0 + a + b + c) / 3)%float
              :: rs3, m3).
Proof.
  intros Hlen.
  destruct (reachable_exec_all cs1 (newMotorsportManager mem))
    as (rs1 & m1 & H1 & Hl1 & Hm1); [by apply reachable_new|].
  destruct (reachable_exec_all cs2 m1 Hm1) as (rs2 & m2 & H2 & Hl2 & Hm2).
  destruct (reachable_exec_all cs3 m2 Hm2) as (rs3 & m3 & H3 & Hl3 & _).
  exists rs1, rs2, rs3, m3.
  split; [|split; [done|split; [done|split; [done|]]]].
  - rewrite exec_all_app, H1. cbn [mbind option_bind].
    rewrite exec_all_app, H2. cbn [mbind option_bind].
    by rewrite H3.
  - rewrite exec_all_app, H1. cbn [mbind option_bind].
    rewrite exec_all_calculateAverageLap, exec_all_app, H2.
    cbn [mbind option_bind].
    rewrite exec_all_calculateAverageLap, H3. cbn [mbind option_bind].
    by rewrite calculateAverageLap_unfold.
Qed.

Lemma calculateAverageLap_stateless_witness :
  ∃ (rs1 rs2 rs3 : list result) (m3 : MotorsportManager),
    exec_all (newMotorsportManager blank_array)
             ([GetSessionCount]
              ++ [AddSession session_A; AddSession session_X;
                  CalculateOverallAverage]
              ++ [GetSessionCount])
    = Some (rs1 ++ rs2 ++ rs3, m3)
    ∧ length rs1 = 1%nat
    ∧ length rs2 = 3%nat
    ∧ length rs3 = 1%nat
    ∧ exec_all (newMotorsportManager blank_array)
               ([GetSessionCount]
                ++ CalculateAverageLap session_A
                :: [AddSession session_A; AddSession session_X;
                    CalculateOverallAverage]
                ++ CalculateAverageLap session_A
                :: [GetSessionCount])
      = Some (rs1 ++ RDouble ((0 + 70 + 71 + 69) / 3)%float
              :: rs2 ++ RDouble ((0 + 70 + 71 + 69) / 3)%float
              :: rs3, m3).
Proof.
  exact (calculateAverageLap_stateless blank_array
           [GetSessionCount]
           [AddSession session_A; AddSession session_X;
            CalculateOverallAverage]
           [GetSessionCount] "A" "B" Formula 70%float 71%float 69%float
           eq_refl).
Defined.

(** C9. A manager that has just been constructed is empty:
    [getSessionCount] returns 0 and no session is stored. *)
Theorem new_manager_empty (mem : list Session) :
  getSessionCount (newMotorsportManager mem) = 0
  ∧ stored (newMotorsportManager mem) = []
  ∧ exec (newMotorsportManager mem) GetSessionCount
    = Some (RInt 0, newMotorsportManager mem).
Proof. by repeat split. Qed.

(** ** Overall average and per-session averages *)

Lemma exact_of_int_nonzero (n : Z) : n ≠ 0 → exact_of_int n ≠ 0%Qc.
Proof.
  intros Hn E. apply (f_equal this) in E. simpl in E.
  apply Qred_eq_iff in E. unfold Qeq in E. simpl in E. lia.
Qed.

Lemma exact_of_int_triple (n : Z) :
  exact_of_int (3 * n) = (exact_of_int 3 * exact_of_int n)%Qc.
Proof.
  unfold exact_of_int. apply Qc_is_canon. simpl.
  rewrite !Qred_correct. by rewrite inject_Z_mult.
Qed.

(** The exact loops keep the total at three times the running sum of the
    per-session averages, and count three laps per session. *)
Lemma exact_loops (l : list Session) (total a : Qc) (lapCount : Z) :
  total = (exact_of_int 3 * a)%Qc →
  foldl (λ acc s,
           foldl (λ '(total, lapCount) j,
                    ((total + value (lapTime s j))%Qc, lapCount + 1))
                 acc (seq 0 3))
        (total, lapCount) l
  = ((exact_of_int 3 * foldl (λ acc s, (acc + exact_average_lap s)%Qc) a l)%Qc,
     lapCount + 3 * Z.of_nat (length l)).
Proof.
  revert total a lapCount. induction l as [|s l IH]; intros total a n Ha.
  - simpl. f_equal; [done | lia].
  - simpl foldl. rewrite (IH _ (a + exact_average_lap s)%Qc).
    + f_equal. simpl length. lia.
    + rewrite Ha. unfold exact_average_lap. simpl. field.
      by apply exact_of_int_nonzero.
Qed.

Lemma reachable_store_PQ : reachable store_PQ.
Proof.
  apply (reachable_exec
           (mkManager (session_P :: replicate 4 blank_session) 1) store_PQ
           (AddSession session_Q) (RBool true)); [|reflexivity].
  apply (reachable_exec (newMotorsportManager blank_array) _
           (AddSession session_P) (RBool true)); [|reflexivity].
  by apply reachable_new.
Qed.

(** C10, as stated, fails on the code.  The store that holds the sessions
    with lap times [1, 1, 0] and [1, 1, 1] is reachable and not empty;
    [calculateOverallAverage] returns the double [5.0 / 6.0] on it, the mean
    of the two values of [calculateAverageLap] is the double
    [(2.0 / 3.0 + 1.0) / 2.0], and the two differ (for [==] too). *)
Lemma overall_average_differs :
  reachable store_PQ
  ∧ 1 ≤ sessionCount store_PQ
  ∧ calculateOverallAverage store_PQ = Some (5 / 6)%float
  ∧ mean_of_session_averages store_PQ = ((2 / 3 + 1) / 2)%float
  ∧ ((5 / 6) =? ((2 / 3 + 1) / 2))%float = false
  ∧ ¬ same_double (5 / 6)%float ((2 / 3 + 1) / 2)%float.
Proof.
  split; [exact reachable_store_PQ|]. split; [simpl; lia|].
  split; [reflexivity|]. split; [reflexivity|]. split; [reflexivity|].
  intros [Heq | Heqb]; [|discriminate Heqb].
  by apply (eqb_false_neq (5 / 6)%float ((2 / 3 + 1) / 2)%float).
Qed.

(** C10, amended.  On a store with at least one session the overall average
    and the mean of the per-session averages are the same number in exact
    arithmetic, since every session contributes three lap times; in double
    arithmetic [calculateOverallAverage] returns the value of
    [calculateAverageLap s] when [s] is the only stored session. *)
Theorem overall_average_and_session_averages (m : MotorsportManager) :
  wf m → 1 ≤ sessionCount m →
  exact_overall_average m = exact_mean_of_session_averages m
  ∧ (∀ s : Session,
       stored m = [s] →
       calculateOverallAverage m = Some (calculateAverageLap s)).
Proof.
  intros Hwf Hpos. pose proof (length_stored m Hwf) as Hlen. split.
  - unfold exact_overall_average, exact_mean_of_session_averages.
    rewrite (exact_loops (stored m) 0%Qc 0%Qc 0) by ring.
    rewrite Hlen. replace (0 + 3 * sessionCount m) with (3 * sessionCount m)
      by lia.
    rewrite exact_of_int_triple. field.
    split; apply exact_of_int_nonzero; lia.
  - intros s Hs. rewrite calculateOverallAverage_nonempty by done.
    unfold mean_of_all_laps, all_laps. rewrite Hs in Hlen |- *.
    simpl in Hlen. rewrite <- Hlen. destruct s as [d t v [[a b] c]].
    reflexivity.
Qed.

Lemma overall_average_and_session_averages_witness :
  wf store_PQ
  ∧ 1 ≤ sessionCount store_PQ
  ∧ exact_overall_average store_PQ = exact_mean_of_session_averages store_PQ.
Proof.
  assert (Hwf : wf store_PQ)
    by (split; [reflexivity | simpl; unfold MAX_SESSIONS; lia]).
  assert (Hpos : 1 ≤ sessionCount store_PQ) by (simpl; lia).
  split; [exact Hwf|]. split; [exact Hpos|].
  exact (proj1 (overall_average_and_session_averages store_PQ Hwf Hpos)).
Defined.

(** * Further properties of the code *)

(** ** Sequences of calls *)

(** The counter moves by one exactly when a call returns [true]. *)
Lemma exec_count (m m' : MotorsportManager) (c : call) (r : result) :
  exec m c = Some (r, m') →
  sessionCount m' = sessionCount m + (if returned_true r then 1 else 0).
Proof.
  destruct c as [s| |s| |v]; simpl.
  - destruct (addSession m s) as [[b m1]|] eqn:Hadd; simpl; [|done].
    intros [= <- <-].
    destruct (addSession_inv _ _ _ _ Hadd) as [(-> & -> & _)|(-> & _ & _ & ->)];
      simpl; lia.
  - intros [= <- <-]. simpl. lia.
  - intros [= <- <-]. simpl. lia.
  - destruct (calculateOverallAverage m); simpl; [|done].
    intros [= <- <-]. simpl. lia.
  - intros [= <- <-]. simpl. lia.
Qed.

Lemma exec_all_count (cs : list call) (m m' : MotorsportManager)
    (rs : list result) :
  exec_all m cs = Some (rs, m') →
  sessionCount m' = sessionCount m + count_true rs.
Proof.
  revert m rs. induction cs as [|c cs IH]; intros m rs; simpl.
  - intros [= <- <-]. unfold count_true. simpl. lia.
  - destruct (exec m c) as [[r m1]|] eqn:Hexec; simpl; [|done].
    destruct (exec_all m1 cs) as [[rs' m2]|] eqn:Hall; simpl; [|done].
    intros [= <- <-]. rewrite (IH _ _ Hall), (exec_count _ _ _ _ Hexec).
    unfold count_true. simpl. destruct (returned_true r); simpl; lia.
Qed.

(** ** Adding more sessions than fit *)

Lemma addSessions_app (l1 l2 : list Session) (m : MotorsportManager) :
  addSessions m (l1 ++ l2)
  = '(bs1, m1) ← addSessions m l1;
    '(bs2, m2) ← addSessions m1 l2;
    Some (bs1 ++ bs2, m2).
Proof.
  revert m. induction l1 as [|s l1 IH]; intros m; simpl.
  - by destruct (addSessions m l2) as [[bs2 m2]|].
  - destruct (addSession m s) as [[b m1]|]; simpl; [|done].
    rewrite IH. destruct (addSessions m1 l1) as [[bs1 m1']|]; simpl; [|done].
    by destruct (addSessions m1' l2) as [[bs2 m2]|].
Qed.

Lemma addSessions_full (l : list Session) (m : MotorsportManager) :
  MAX_SESSIONS ≤ sessionCount m →
  addSessions m l = Some (replicate (length l) false, m).
Proof.
  intros Hfull. induction l as [|s l IH]; simpl; [done|].
  rewrite addSession_full by done. simpl. by rewrite IH.
Qed.

(** ** The overall average reads the stored sessions only *)

Lemma mean_of_all_laps_stored (m1 m2 : MotorsportManager) :
  wf m1 → wf m2 → stored m1 = stored m2 →
  sessionCount m1 = sessionCount m2
  ∧ mean_of_all_laps m1 = mean_of_all_laps m2.
Proof.
  intros Hwf1 Hwf2 Hst.
  assert (Hc : sessionCount m1 = sessionCount m2)
    by (rewrite <- (length_stored m1), <- (length_stored m2), Hst; done).
  split; [done|]. unfold mean_of_all_laps, all_laps. by rewrite Hst, Hc.
Qed.

(** X1. No sequence of calls on a constructed manager runs into undefined
    behaviour: every call returns, none reads or writes outside the array of
    five sessions, and the manager stays well formed. *)
Theorem calls_never_fail (mem : list Session) (cs : list call) :
  length mem = Z.to_nat MAX_SESSIONS →
  ∃ rs m', exec_all (newMotorsportManager mem) cs = Some (rs, m')
           ∧ length rs = length cs
           ∧ length (sessions m') = Z.to_nat MAX_SESSIONS
           ∧ 0 ≤ sessionCount m' ≤ MAX_SESSIONS.
Proof.
  intros Hlen.
  destruct (reachable_exec_all cs (newMotorsportManager mem))
    as (rs & m' & Hall & Hrs & Hm'); [by apply reachable_new|].
  exists rs, m'. split; [done|]. split; [done|]. by apply reachable_wf.
Qed.

Lemma calls_never_fail_witness :
  ∃ rs m',
    exec_all (newMotorsportManager blank_array)
             [CalculateOverallAverage; AddSession session_A;
              CalculateOverallAverage; GetSessionCount]
    = Some (rs, m')
    ∧ length rs = 4%nat
    ∧ length (sessions m') = Z.to_nat MAX_SESSIONS
    ∧ 0 ≤ sessionCount m' ≤ MAX_SESSIONS.
Proof.
  exact (calls_never_fail blank_array
           [CalculateOverallAverage; AddSession session_A;
            CalculateOverallAverage; GetSessionCount] eq_refl).
Defined.

(** X2. Adding the sessions of a list of any length to a new manager keeps
    the first five in order and drops the rest: the first five calls (or all,
    if there are fewer) return [true], the later ones [false], and the
    count is the smaller of 5 and the length. *)
Theorem addSessions_keeps_first_five (mem l : list Session) :
  length mem = Z.to_nat MAX_SESSIONS →
  ∃ m', addSessions (newMotorsportManager mem) l
        = Some (replicate (length l `min` 5) true
                ++ replicate (length l - 5) false, m')
        ∧ stored m' = take 5 l
        ∧ getSessionCount m' = Z.of_nat (length l `min` 5).
Proof.
  intros Hlen. pose proof (wf_new mem Hlen) as Hwf.
  destruct (addSessions_room (take 5 l) (newMotorsportManager mem) Hwf)
    as (m1 & Hrun & Hwf1 & Hst & Hc).
  { rewrite length_take. unfold newMotorsportManager, MAX_SESSIONS.
    cbn [sessionCount]. lia. }
  exists m1. rewrite <- (take_drop 5 l) at 1. rewrite addSessions_app, Hrun.
  cbn [mbind option_bind]. rewrite length_take in Hc, Hrun |- *.
  unfold newMotorsportManager in Hc, Hst. cbn [sessionCount] in Hc.
  change (stored {| sessions := mem; sessionCount := 0 |})
    with (@nil Session) in Hst.
  rewrite app_nil_l in Hst.
  replace (5 `min` length l)%nat with (length l `min` 5)%nat in * by lia.
  assert (Hrest : addSessions m1 (drop 5 l)
                  = Some (replicate (length l - 5) false, m1)).
  { destruct (decide (length l ≤ 5)%nat) as [Hshort|Hlong].
    - rewrite drop_ge by done.
      by replace (length l - 5)%nat with 0%nat by lia.
    - rewrite addSessions_full by (unfold MAX_SESSIONS; lia).
      by rewrite length_drop. }
  rewrite Hrest. cbn [mbind option_bind].
  split; [done|]. split; [done|]. unfold getSessionCount. lia.
Qed.

Lemma addSessions_keeps_first_five_witness :
  ∃ m', addSessions (newMotorsportManager blank_array)
                    (session_A :: replicate 6 session_X)
        = Some ([true; true; true; true; true; false; false], m')
        ∧ stored m' = session_A :: replicate 4 session_X
        ∧ getSessionCount m' = 5.
Proof.
  exact (addSessions_keeps_first_five blank_array
           (session_A :: replicate 6 session_X) eq_refl).
Defined.

(** X3. After any sequence of calls on a new manager, [getSessionCount] is
    the number of calls that returned [true] (the successful calls of
    [addSession]). *)
Theorem count_is_number_of_successful_adds (mem : list Session)
    (cs : list call) (rs : list result) (m' : MotorsportManager) :
  exec_all (newMotorsportManager mem) cs = Some (rs, m') →
  getSessionCount m' = count_true rs.
Proof.
  intros Hall. unfold getSessionCount. rewrite (exec_all_count _ _ _ _ Hall).
  simpl. lia.
Qed.

Lemma count_is_number_of_successful_adds_witness :
  getSessionCount store_A
  = count_true [RDouble 0%float; RBool true; RDouble 70%float; RInt 1].
Proof.
  exact (count_is_number_of_successful_adds blank_array
           [CalculateOverallAverage; AddSession session_A;
            CalculateOverallAverage; GetSessionCount]
           [RDouble 0%float; RBool true; RDouble 70%float; RInt 1] store_A eq_refl).
Defined.

(** X4. [calculateOverallAverage] reads the stored sessions only: two
    well-formed managers with the same stored sessions give the same
    result, whatever the array elements from [sessionCount] on hold. *)
Theorem overall_average_ignores_unused_slots (m1 m2 : MotorsportManager) :
  wf m1 → wf m2 → stored m1 = stored m2 →
  calculateOverallAverage m1 = calculateOverallAverage m2.
Proof.
  intros Hwf1 Hwf2 Hst.
  destruct (mean_of_all_laps_stored m1 m2 Hwf1 Hwf2 Hst) as [Hc Hmean].
  destruct (decide (sessionCount m1 = 0)) as [H0|Hne].
  - unfold calculateOverallAverage. by rewrite <- Hc, H0.
  - pose proof Hwf1 as [_ ?].
    rewrite !calculateOverallAverage_nonempty by (done || lia).
    by rewrite Hmean.
Qed.

Lemma overall_average_ignores_unused_slots_witness :
  calculateOverallAverage store_A
  = calculateOverallAverage (mkManager (session_A :: replicate 4 session_X) 1).
Proof.
  apply (overall_average_ignores_unused_slots store_A
           (mkManager (session_A :: replicate 4 session_X) 1)).
  - split; [reflexivity | simpl; unfold MAX_SESSIONS; lia].
  - split; [reflexivity | simpl; unfold MAX_SESSIONS; lia].
  - reflexivity.
Defined.

(** ** Lap times that are no numbers *)

Lemma add_nan_l (x : double) : (nan + x)%float = nan.
Proof.
  apply Prim2SF_inj. rewrite FloatAxioms.add_spec.
  change (Prim2SF nan) with S754_nan.
  destruct (Prim2SF x) as [[|]|[|]| |[|] mant e]; reflexivity.
Qed.

Lemma add_nan_r (x : double) : (x + nan)%float = nan.
Proof.
  apply Prim2SF_inj. rewrite FloatAxioms.add_spec.
  change (Prim2SF nan) with S754_nan.
  destruct (Prim2SF x) as [[|]|[|]| |[|] mant e]; reflexivity.
Qed.

Lemma div_nan_l (y : double) : (nan / y)%float = nan.
Proof.
  apply Prim2SF_inj. rewrite FloatAxioms.div_spec.
  change (Prim2SF nan) with S754_nan.
  destruct (Prim2SF y) as [[|]|[|]| |[|] mant e]; reflexivity.
Qed.

(** Once the total is a NaN it stays one. *)
Lemma foldl_add_nan (l : list double) :
  foldl (λ acc x, (acc + x)%float) nan l = nan.
Proof.
  induction l as [|x l IH]; [done|]. simpl. by rewrite add_nan_l.
Qed.

Lemma foldl_add_laps_nan (s : Session) (total : double) :
  has_nan_lap s → foldl (λ acc x, (acc + x)%float) total (laps s) = nan.
Proof.
  intros (j & Hj & Hnan). unfold lapTime in Hnan. unfold laps.
  destruct (lapTimes s) as [[t0 t1] t2]. simpl.
  destruct j as [|[|j]]; subst;
    by rewrite ?add_nan_r, ?add_nan_l.
Qed.

Lemma foldl_add_sessions_nan (l : list Session) (s : Session)
    (total : double) :
  s ∈ l → has_nan_lap s →
  foldl (λ acc x, (acc + x)%float) total (concat (laps <$> l)) = nan.
Proof.
  intros Hin Hnan. revert total.
  induction l as [|s' l IH]; intros total; [by apply elem_of_nil in Hin|].
  rewrite fmap_cons. simpl concat. rewrite foldl_app.
  apply elem_of_cons in Hin as [<- | Hin].
  - by rewrite (foldl_add_laps_nan s total Hnan), foldl_add_nan.
  - by apply IH.
Qed.

(** X5. Lap times are not validated: when one of the three lap times of a
    session is a NaN, [calculateAverageLap] returns a NaN. *)
Theorem calculateAverageLap_nan (s : Session) :
  has_nan_lap s → calculateAverageLap s = nan.
Proof.
  intros Hnan. pose proof (foldl_add_laps_nan s 0%float Hnan) as Htotal.
  unfold laps in Htotal. unfold calculateAverageLap, lapTime.
  destruct (lapTimes s) as [[t0 t1] t2]. simpl in *.
  rewrite Htotal. apply div_nan_l.
Qed.

Lemma calculateAverageLap_nan_witness :
  calculateAverageLap (mkSession "N" "T" Rally (120, nan, 121)%float) = nan.
Proof.
  apply (calculateAverageLap_nan
           (mkSession "N" "T" Rally (120, nan, 121)%float)).
  exists 1%nat. split; [lia | reflexivity].
Defined.

(** X6. One NaN lap time spoils the overall average: when a stored session
    has a NaN among its lap times, [calculateOverallAverage] returns a NaN,
    whatever the other stored sessions are. *)
Theorem calculateOverallAverage_nan (m : MotorsportManager) (s : Session) :
  wf m → s ∈ stored m → has_nan_lap s →
  calculateOverallAverage m = Some nan.
Proof.
  intros Hwf Hin Hnan.
  assert (Hpos : 1 ≤ sessionCount m).
  { pose proof (length_stored m Hwf) as Hlen.
    destruct (stored m) as [|s' l]; [by apply elem_of_nil in Hin|].
    simpl in Hlen. lia. }
  rewrite calculateOverallAverage_nonempty by done.
  unfold mean_of_all_laps, sum_doubles, all_laps.
  rewrite (foldl_add_sessions_nan _ s) by done.
  by rewrite div_nan_l.
Qed.

Lemma calculateOverallAverage_nan_witness :
  calculateOverallAverage
    (mkManager (session_A :: mkSession "N" "T" Rally (120, nan, 121)%float
                :: replicate 3 blank_session) 2)
  = Some nan.
Proof.
  apply (calculateOverallAverage_nan _
           (mkSession "N" "T" Rally (120, nan, 121)%float)).
  - split; [reflexivity | simpl; unfold MAX_SESSIONS; lia].
  - apply list_elem_of_further, list_elem_of_here.
  - exists 1%nat. split; [lia | reflexivity].
Defined.

(** ** The main program *)

(** The draw depends on [rand()] through [rand() % 1000], which lies
    between 0 and 999. *)
Lemma generate_lap_rem (baseTime : double) (r : Z) :
  0 ≤ r →
  generate_lap baseTime r = generate_lap baseTime (Z.rem r 1000)
  ∧ Z.rem r 1000 ∈ seqZ 0 1000.
Proof.
  intros Hr. pose proof (Z.rem_bound_pos r 1000 Hr ltac:(lia)) as Hb.
  split.
  - unfold generate_lap. by rewrite (Z.rem_small (Z.rem r 1000) 1000).
  - apply elem_of_seqZ. lia.
Qed.

(** The thousand possible draws for each of the three base times. *)
Lemma all_draws_in_range :
  forallb (lap_in_range 95%float) (seqZ 0 1000)
  && forallb (lap_in_range 70%float) (seqZ 0 1000)
  && forallb (lap_in_range 120%float) (seqZ 0 1000) = true.
Proof. vm_compute. reflexivity. Qed.

Lemma generate_lap_in_range (vehicle : VehicleType) (r : Z) :
  0 ≤ r → lap_in_range (getBaseLapTime vehicle) r = true.
Proof.
  intros Hr.
  destruct (generate_lap_rem (getBaseLapTime vehicle) r Hr) as [Hrem Hin].
  unfold lap_in_range. rewrite Hrem.
  change (lap_in_range (getBaseLapTime vehicle) (Z.rem r 1000) = true).
  apply list_elem_of_In in Hin.
  pose proof all_draws_in_range as Hall.
  apply andb_prop in Hall as [Hall H120]. apply andb_prop in Hall as [H95 H70].
  unfold getBaseLapTime.
  destruct (vehicle =? GT3); [|destruct (vehicle =? Formula)];
    eapply forallb_forall; eauto.
Qed.

(** The overall average of a store that holds one session. *)
Lemma calculateOverallAverage_single (m : MotorsportManager) (s : Session) :
  wf m → stored m = [s] →
  calculateOverallAverage m = Some (calculateAverageLap s).
Proof.
  intros Hwf Hs. pose proof (length_stored m Hwf) as Hlen.
  rewrite Hs in Hlen. simpl in Hlen.
  rewrite calculateOverallAverage_nonempty by (done || lia).
  unfold mean_of_all_laps, all_laps. rewrite Hs, <- Hlen.
  destruct s as [d t v [[a b] c]]. reflexivity.
Qed.

(** X7. The lap times that [main] draws stay within ten seconds above the
    base time of the vehicle: for values of [rand()] that are not negative,
    each of the three lap times [t] satisfies [base <= t < base + 10]. *)
Theorem main_lap_times_in_range (driver track : string) (choice : Z)
    (r0 r1 r2 : Z) (j : nat) :
  0 ≤ r0 → 0 ≤ r1 → 0 ≤ r2 → (j < 3)%nat →
  (getBaseLapTime choice
   <=? lapTime (main_session driver track choice r0 r1 r2) j)%float = true
  ∧ (lapTime (main_session driver track choice r0 r1 r2) j
     <? getBaseLapTime choice + 10)%float = true.
Proof.
  intros H0 H1 H2 Hj. apply andb_prop.
  destruct j as [|[|[|j]]]; [| | |lia].
  - exact (generate_lap_in_range choice r0 H0).
  - exact (generate_lap_in_range choice r1 H1).
  - exact (generate_lap_in_range choice r2 H2).
Qed.

Lemma main_lap_times_in_range_witness :
  (120 <=? lapTime (main_session "Ann" "Monza" 3 12345 999 0) 1)%float = true
  ∧ (lapTime (main_session "Ann" "Monza" 3 12345 999 0) 1 <? 120 + 10)%float
    = true.
Proof.
  apply (main_lap_times_in_range "Ann" "Monza" 3 12345 999 0 1); lia.
Defined.

(** X8. A run of [main] never fails, and the two averages it shows are the
    same double: the session is stored in the new manager (the call of
    [addSession] returns [true]), it is the only one stored, and the overall
    average is the average lap of that session. *)
Theorem main_averages_agree (fmt : double → string) (mem : list Session)
    (driver track : string) (choice r0 r1 r2 : Z) :
  length mem = Z.to_nat MAX_SESSIONS →
  addSession (newMotorsportManager mem)
             (main_session driver track choice r0 r1 r2)
  = Some (true,
          mkManager (<[0%nat := main_session driver track choice r0 r1 r2]> mem)
                    1)
  ∧ ∃ out, main fmt mem driver track choice r0 r1 r2 = Some out
           ∧ shownOverallAverage out = shownAverageLap out
           ∧ shownAverageLap out
             = calculateAverageLap (main_session driver track choice r0 r1 r2).
Proof.
  intros Hlen. pose proof (wf_new mem Hlen) as Hwf.
  assert (Hadd : addSession (newMotorsportManager mem)
                   (main_session driver track choice r0 r1 r2)
                 = Some (true,
                         mkManager (<[0%nat := main_session driver track choice
                                                  r0 r1 r2]> mem) 1)).
  { rewrite addSession_room; [done | simpl; unfold MAX_SESSIONS; lia |].
    simpl. rewrite Hlen. unfold MAX_SESSIONS. lia. }
  split; [exact Hadd|].
  unfold main. rewrite Hadd. cbn [mbind option_bind].
  rewrite (calculateOverallAverage_single _
             (main_session driver track choice r0 r1 r2)).
  - eexists. split; [reflexivity|]. by split.
  - by eapply wf_addSession.
  - unfold stored. simpl. destruct mem as [|s0 mem]; [done|]. reflexivity.
Qed.

Lemma main_averages_agree_witness :
  ∃ out, main (λ _, "124.48") blank_array "Ann" "Monza" 7 12345 999 0
         = Some out
         ∧ shownOverallAverage out = shownAverageLap out
         ∧ shownAverageLap out
           = calculateAverageLap (main_session "Ann" "Monza" 7 12345 999 0).
Proof.
  exact (proj2 (main_averages_agree (λ _, "124.48") blank_array
                  "Ann" "Monza" 7 12345 999 0 eq_refl)).
Defined.

(** X9. The report and the draw treat the vehicle choice alike: for the
    choice 1 the report says GT3 and the base time is 95.0, for 2 it says
    Formula and the base time is 70.0, and every other choice, not only 3,
    is reported as Rally with the base time 120.0. *)
Theorem vehicle_name_matches_base_time (driver track : string)
    (choice r0 r1 r2 : Z) :
  vehicle (main_session driver track choice r0 r1 r2) = choice
  ∧ ((choice = 1 ∧ vehicleName choice = "GT3"
      ∧ getBaseLapTime choice = 95%float)
     ∨ (choice = 2 ∧ vehicleName choice = "Formula"
        ∧ getBaseLapTime choice = 70%float)
     ∨ (choice ≠ 1 ∧ choice ≠ 2 ∧ vehicleName choice = "Rally"
        ∧ getBaseLapTime choice = 120%float)).
Proof.
  split; [reflexivity|]. unfold vehicleName, getBaseLapTime, GT3, Formula.
  destruct (Z.eqb_spec choice 1) as [->|H1]; [by left|].
  destruct (Z.eqb_spec choice 2) as [->|H2]; [right; by left|].
  right; right. done.
Qed.

(** ** The report *)

Lemma string_app_cons (c : Ascii.ascii) (s t : string) :
  String c s +:+ t = String c (s +:+ t).
Proof. reflexivity. Qed.

Lemma string_app_assoc (a b c : string) :
  (a +:+ b) +:+ c = a +:+ (b +:+ c).
Proof.
  induction a as [|x a IH]; [reflexivity|].
  rewrite !string_app_cons. by rewrite IH.
Qed.

Lemma string_length_app (a b : string) :
  String.length (a +:+ b) = (String.length a + String.length b)%nat.
Proof.
  induction a as [|x a IH]; [reflexivity|].
  rewrite string_app_cons. simpl. by rewrite IH.
Qed.

Lemma string_length_spaces (n : nat) : String.length (spaces n) = n.
Proof. induction n as [|n IH]; simpl; [done | by rewrite IH]. Qed.

(** A field is as wide as asked for, or as wide as its text if that is
    longer. *)
Lemma string_length_setw_left (w : nat) (s : string) :
  String.length (setw_left w s) = (w `max` String.length s)%nat.
Proof.
  unfold setw_left. rewrite string_length_app, string_length_spaces. lia.
Qed.

Lemma has_newline_app (a b : string) :
  has_newline (a +:+ b) = has_newline a || has_newline b.
Proof.
  induction a as [|x a IH]; [reflexivity|].
  rewrite string_app_cons. simpl. rewrite IH. by rewrite orb_assoc.
Qed.

Lemma has_newline_spaces (n : nat) : has_newline (spaces n) = false.
Proof. induction n as [|n IH]; [done|]. simpl. exact IH. Qed.

Lemma has_newline_setw_left (w : nat) (s : string) :
  has_newline (setw_left w s) = has_newline s.
Proof.
  unfold setw_left. rewrite has_newline_app, has_newline_spaces.
  by rewrite orb_false_r.
Qed.

Lemma has_newline_vehicleName (v : VehicleType) :
  has_newline (vehicleName v) = false.
Proof.
  unfold vehicleName. by destruct (v =? GT3); [|destruct (v =? Formula)].
Qed.

Lemma string_length_vehicleName (v : VehicleType) :
  (String.length (vehicleName v) ≤ 7)%nat.
Proof.
  unfold vehicleName.
  destruct (v =? GT3); [|destruct (v =? Formula)]; simpl; lia.
Qed.

(** A text without newline up to a newline is the first line. *)
Lemma split_lines_app (a b : string) :
  has_newline a = false →
  split_lines (a +:+ String newline_char b) = a :: split_lines b.
Proof.
  induction a as [|x a IH]; intros Ha.
  - reflexivity.
  - simpl in Ha. apply orb_false_elim in Ha as [Hx Ha].
    rewrite string_app_cons. simpl. rewrite Hx, (IH Ha). reflexivity.
Qed.

(** The header as it is written: a line, the newline, and the spaces that
    fill the last field. *)
Lemma report_header_text :
  report_header
  = "Driver         Track          Vehicle   Avg Lap"
    +:+ String newline_char "    ".
Proof. reflexivity. Qed.

(** X10. The report has two lines of text.  The first is the header; the
    second is the row of the session, and it begins with four spaces that
    the header does not have (the newline of the header is written inside
    its last field, so the padding of that field comes after it): every
    column of the row stands four places to the right of its heading. *)
Theorem report_lines (fmt : double → string) (s : Session) :
  has_newline (driverName s) = false →
  has_newline (trackName s) = false →
  has_newline (fmt (calculateAverageLap s)) = false →
  split_lines (report fmt s)
  = [ "Driver         Track          Vehicle   Avg Lap";
      "    " +:+ setw_left 15 (driverName s) +:+ setw_left 15 (trackName s)
      +:+ setw_left 10 (vehicleName (vehicle s))
      +:+ setw_left 12 (fmt (calculateAverageLap s));
      "" ].
Proof.
  intros Hd Ht Hf. unfold report, report_row, newline.
  rewrite report_header_text.
  rewrite (string_app_assoc _ (String newline_char "    ")).
  rewrite (string_app_cons newline_char "    ").
  rewrite split_lines_app by reflexivity. f_equal.
  rewrite <- !string_app_assoc.
  rewrite split_lines_app; [|].
  - rewrite !string_app_assoc. reflexivity.
  - rewrite !has_newline_app, !has_newline_setw_left, Hd, Ht, Hf.
    by rewrite has_newline_vehicleName.
Qed.

Lemma report_lines_witness :
  split_lines (report (λ _, "70") session_A)
  = [ "Driver         Track          Vehicle   Avg Lap";
      "    A              B              Formula   70          ";
      "" ].
Proof.
  exact (report_lines (λ _, "70") session_A eq_refl eq_refl eq_refl).
Defined.

(** X11. No field of the row is cut: the row is the driver name followed
    by the rest, the vehicle column is always 10 wide, and the row is
    [max 15 |driver| + max 15 |track| + 10 + max 12 |average|] characters
    long before its newline, which is 52 when the texts fit their widths. *)
Theorem report_row_width (fmt : double → string) (s : Session) :
  String.length (setw_left 10 (vehicleName (vehicle s))) = 10%nat
  ∧ String.length (report_row fmt s)
    = ((15 `max` String.length (driverName s))
       + (15 `max` String.length (trackName s))
       + 10
       + (12 `max` String.length (fmt (calculateAverageLap s)))
       + 1)%nat
  ∧ String.prefix (driverName s) (report_row fmt s) = true.
Proof.
  assert (Hv : String.length (setw_left 10 (vehicleName (vehicle s))) = 10%nat).
  { rewrite string_length_setw_left.
    pose proof (string_length_vehicleName (vehicle s)). lia. }
  split; [exact Hv|]. split.
  - unfold report_row. rewrite !string_length_app, Hv.
    rewrite !string_length_setw_left. simpl. lia.
  - unfold report_row, setw_left. rewrite string_app_assoc.
    generalize (spaces (15 - String.length (driverName s))
                +:+ (trackName s +:+ spaces (15 - String.length (trackName s)))
                +:+ (vehicleName (vehicle s)
                     +:+ spaces (10 - String.length (vehicleName (vehicle s))))
                +:+ (fmt (calculateAverageLap s)
                     +:+ spaces (12 - String.length
                                        (fmt (calculateAverageLap s))))
                +:+ newline) as rest.
    intros rest. induction (driverName s) as [|c d IH]; simpl.
    + by destruct rest.
    + destruct (Ascii.ascii_dec c c) as [_|Hne]; [exact IH | done].
Qed.
